(** * QuadTree: a shallow embedding of [src/quadtree.py]

    The Python module defines a class [QuadTree] with four child slots
    ([hg], [hd], [bd], [bg]), a [depth] property, two static constructors
    ([from_file], [from_list]) and a Tkinter subclass [TkQuadTree] whose
    [draw] method paints a nested list on a canvas.

    Python values are embedded as an inductive type, exceptions as an
    explicit error result, and the canvas as the list of rectangles
    created so far.  The interpreter's recursion limit is not modelled. *)

From Stdlib Require Import String ZArith List Bool Lia.
Import ListNotations.
Local Open Scope Z_scope.

(** ** Python values *)

(** The run-time values that reach the module: integers, booleans, [None],
    strings, lists, and instances of [QuadTree].  A [QuadTree] instance
    stores whatever four values its constructor received. *)
#[warnings="-register-all"]
Inductive value : Type :=
| VInt (z : Z)
| VBool (b : bool)
| VNone
| VStr (s : string)
| VList (l : list value)
| VObj (t : QuadTree)
with QuadTree : Type :=
| mkQuadTree (hg hd bd bg : value).

Definition hg (t : QuadTree) : value := let 'mkQuadTree a _ _ _ := t in a.
Definition hd (t : QuadTree) : value := let 'mkQuadTree _ b _ _ := t in b.
Definition bd (t : QuadTree) : value := let 'mkQuadTree _ _ c _ := t in c.
Definition bg (t : QuadTree) : value := let 'mkQuadTree _ _ _ d := t in d.

Definition NB_NODES : Z := 4.

(** [isinstance(v, list)] *)
Definition is_list (v : value) : bool :=
  match v with VList _ => true | _ => false end.

(** [isinstance(v, QuadTree)] *)
Definition is_QuadTree (v : value) : bool :=
  match v with VObj _ => true | _ => false end.

(** ** Exceptions *)

Inductive exn : Type :=
| IndexError      (* list index out of range *)
| ValueError      (* not enough / too many values to unpack *)
| TypeError       (* wrong number of positional arguments *)
| OSError         (* open() failed *)
| EvalError       (* whatever eval() raised *)
| TclError.       (* Tk could not make the window or the canvas *)

Inductive result (A : Type) : Type :=
| Ok (a : A)
| Raise (e : exn).
Arguments Ok {A} a.
Arguments Raise {A} e.

Definition bind {A B} (r : result A) (k : A -> result B) : result B :=
  match r with
  | Ok a => k a
  | Raise e => Raise e
  end.

Notation "x <- c ;; k" := (bind c (fun x => k))
  (at level 61, c at next level, right associativity).

Definition raises {A} (r : result A) : Prop := exists e, r = Raise e.

(** ** [QuadTree.depth] *)

(** [max(depths)] for a non-empty list whose head is [d0]. *)
Definition py_max (d0 : Z) (ds : list Z) : Z := fold_left Z.max ds d0.

(** [depths = [0]]; one entry is appended per child that is itself a
    [QuadTree]; the result is [1 + max(depths)]. *)
Fixpoint depth (t : QuadTree) : Z :=
  let sub (c : value) : list Z :=
    match c with
    | VObj q => [depth q]
    | _ => []
    end in
  match t with
  | mkQuadTree a b c d =>
      1 + py_max 0 (sub a ++ sub b ++ sub c ++ sub d)
  end.

(** ** [QuadTree.from_list] *)

(** [QuadTree] applied to the unpacked list ([data] preceded by a star):
    the constructor takes exactly four positional arguments; any other
    count is a [TypeError]. *)
Definition QuadTree_star (data : list value) : result value :=
  match data with
  | [a; b; c; d] => Ok (VObj (mkQuadTree a b c d))
  | _ => Raise TypeError
  end.

(** [hg, hd, bd, bg = (f(x) for x in data)]: the generator is consumed
    one item at a time.  An item that raises propagates at once; running
    out before four items is a [ValueError]; after four items the
    iterator is asked for one more, so a fifth item is still computed
    (and may raise) before the [ValueError] for too many values. *)
Definition unpack4 (gen : list (result value))
  : result (value * value * value * value) :=
  match gen with
  | [] => Raise ValueError
  | r0 :: g1 =>
    a <- r0 ;;
    match g1 with
    | [] => Raise ValueError
    | r1 :: g2 =>
      b <- r1 ;;
      match g2 with
      | [] => Raise ValueError
      | r2 :: g3 =>
        c <- r2 ;;
        match g3 with
        | [] => Raise ValueError
        | r3 :: g4 =>
          d <- r3 ;;
          match g4 with
          | [] => Ok (a, b, c, d)
          | r4 :: _ => _ <- r4 ;; Raise ValueError
          end
        end
      end
    end
  end.

(** The body has one [if isinstance(data, list)] and no [else]: any other
    value falls off the end of the function, which returns [None]. *)
Fixpoint from_list (data : value) : result value :=
  match data with
  | VList l =>
      match l with
      | [] => Raise IndexError                      (* data[0] *)
      | x0 :: _ =>
          if is_list x0 then
            p <- unpack4 (map from_list l) ;;
            let '(a, b, c, d) := p in
            Ok (VObj (mkQuadTree a b c d))
          else
            QuadTree_star l
      end
  | _ => Ok VNone
  end.

(** ** [QuadTree.from_file] *)

Section FromFile.
(** The collaborators of [from_file]: the module's [__file__], the
    [os.path] functions, the file system ([open] followed by [read],
    [None] when the file cannot be opened) and [eval], which sees the
    local variables of [from_file] at the point of the call. *)
Variable module_file : string.
Variable os_path_abspath : string -> string.
Variable os_path_dirname : string -> string.
Variable os_path_join : list string -> string.
Variable open_read : string -> option string.
Variable py_eval : list (string * string) -> string -> result value.

Definition os_pardir : string := "..".

Definition from_file (filename : string) : result value :=
  let file_path := os_path_join [os_path_dirname (os_path_abspath module_file)] in
  let parent_directory := os_path_abspath (os_path_join [file_path; os_pardir]) in
  let filename := "../files/quadtree-easy.txt"%string in
  let txt_file := os_path_join [parent_directory; "files"%string; filename] in
  match open_read txt_file with
  | None => Raise OSError
  | Some text =>
      let scope := [("filename", filename); ("file_path", file_path);
                    ("parent_directory", parent_directory);
                    ("txt_file", txt_file)]%string in
      data <- py_eval scope text ;;
      from_list data
  end.
End FromFile.

(** ** [TkQuadTree.draw] *)

(** One item created by [canvas.create_rectangle(x0, y0, x1, y1,
    fill=..., outline=...)]. *)
Record rectangle : Type := mkRect {
  rx0 : Z; ry0 : Z; rx1 : Z; ry1 : Z;
  fill : string;
  outline : string
}.

(** The canvas is the list of its items in creation order. *)
Definition canvas : Type := list rectangle.

(** A drawing command transforms the canvas and may raise; what was
    drawn before the exception stays on the canvas. *)
Definition cmd : Type := canvas -> canvas * result unit.

Definition skip : cmd := fun cv => (cv, Ok tt).
Definition throw (e : exn) : cmd := fun cv => (cv, Raise e).
Definition andthen (c1 c2 : cmd) : cmd :=
  fun cv =>
    match c1 cv with
    | (cv', Ok _) => c2 cv'
    | (cv', Raise e) => (cv', Raise e)
    end.
Notation "c1 >> c2" := (andthen c1 c2) (at level 62, right associativity).

Definition create_rectangle (x0 y0 x1 y1 : Z) (f o : string) : cmd :=
  fun cv => (cv ++ [mkRect x0 y0 x1 y1 f o], Ok tt).

(** [node == 0] for an [int] instance ([False == 0] holds in Python). *)
Definition eq_zero (node : value) : bool :=
  match node with
  | VInt z => z =? 0
  | VBool b => negb b
  | _ => false
  end.

(** [size // 2] is floor division, which is [Z.div] for the divisor 2.
    [node[i]] raises [IndexError] when the list is too short, after the
    earlier children have been drawn.  An [int] instance is a [VInt] or,
    [bool] being a subclass of [int], a [VBool]; any other node draws
    nothing. *)
Fixpoint draw (x y size : Z) (node : value) : cmd :=
  match node with
  | VList l =>
      let half_size := size / 2 in
      match l with
      | [] => throw IndexError
      | n0 :: l1 =>
        draw x y half_size n0 >>
        match l1 with
        | [] => throw IndexError
        | n1 :: l2 =>
          draw (x + half_size) y half_size n1 >>
          match l2 with
          | [] => throw IndexError
          | n2 :: l3 =>
            draw x (y + half_size) half_size n2 >>
            match l3 with
            | [] => throw IndexError
            | n3 :: _ =>
              draw (x + half_size) (y + half_size) half_size n3
            end
          end
        end
      end
  | VInt _ | VBool _ =>
      let fill_color := (if eq_zero node then "lightgrey" else "black")%string in
      create_rectangle x y (x + size) (y + size) fill_color "black"%string
  | _ => skip
  end.

(** ** The specification's data model *)

Module Spec.

(** The tagged variant of the specification: a leaf holding one binary
    value, or a split owning four children in the order top-left,
    top-right, bottom-right, bottom-left. *)
Inductive Node : Type :=
| Leaf (value : bool)
| Split (top_left top_right bottom_right bottom_left : Node).

(** A single leaf has depth 1, a split has depth 1 + the maximum depth
    of its four children. *)
Fixpoint depth (n : Node) : Z :=
  match n with
  | Leaf _ => 1
  | Split a b c d =>
      1 + Z.max (depth a) (Z.max (depth b) (Z.max (depth c) (depth d)))
  end.

(** The serialized form: a sequence of 4 elements, each either the
    integer 0 or 1 (a leaf) or another such sequence (a split). *)
Fixpoint parse (v : value) : option Node :=
  match v with
  | VInt 0 => Some (Leaf false)
  | VInt 1 => Some (Leaf true)
  | VList [a; b; c; d] =>
      match parse a, parse b, parse c, parse d with
      | Some na, Some nb, Some nc, Some nd => Some (Split na nb nc nd)
      | _, _, _, _ => None
      end
  | _ => None
  end.

(** A well-formed nested sequence is a list that parses. *)
Definition well_formed (v : value) : bool :=
  is_list v && match parse v with Some _ => true | None => false end.

(** The rendering contract: a split quarters its square and visits the
    children in the order top-left, top-right, bottom-right,
    bottom-left; a leaf is one filled square. *)
Fixpoint render (x y size : Z) (n : Node) : list rectangle :=
  match n with
  | Leaf b =>
      [mkRect x y (x + size) (y + size)
              (if b then "black" else "lightgrey")%string "black"%string]
  | Split tl tr br bl =>
      let half := size / 2 in
      render x y half tl ++
      render (x + half) y half tr ++
      render (x + half) (y + half) half br ++
      render x (y + half) half bl
  end.

End Spec.

(** ** Shapes of inputs and trees *)

Definition ints (zs : list Z) : value := VList (map VInt zs).

(** The demonstration input of depth 2 and its reading as a [Spec.Node]. *)
Definition scenario : value :=
  VList [ints [1; 0; 0; 1]; ints [0; 0; 1; 0]; ints [1; 1; 0; 0]; ints [0; 1; 1; 0]].

Definition scenario_node : Spec.Node :=
  let leaf (z : Z) := Spec.Leaf (negb (z =? 0)) in
  let group (a b c d : Z) := Spec.Split (leaf a) (leaf b) (leaf c) (leaf d) in
  Spec.Split (group 1 0 0 1) (group 0 0 1 0) (group 1 1 0 0) (group 0 1 1 0).

(** A square item with the black outline [draw] always uses. *)
Definition square (x y size : Z) (color : string) : rectangle :=
  mkRect x y (x + size) (y + size) color "black".

(** A leaf value of the serialized form: the integer 0 or 1. *)
Definition is_bit (v : value) : bool :=
  match v with
  | VInt z => (z =? 0) || (z =? 1)
  | _ => false
  end.

(** A value that is neither a list nor a [QuadTree] instance. *)
Definition is_scalar (v : value) : bool :=
  match v with
  | VList _ | VObj _ => false
  | _ => true
  end.


(** Some list anywhere in the input does not have exactly 4 elements. *)
Fixpoint has_bad_group (v : value) : bool :=
  match v with
  | VList l => negb (length l =? 4)%nat || existsb has_bad_group l
  | _ => false
  end.

(** Some non-list element anywhere in the input is not 0 or 1. *)
Fixpoint has_bad_leaf (v : value) : bool :=
  match v with
  | VList l => existsb has_bad_leaf l
  | _ => negb (is_bit v)
  end.

(** A wrong-sized group at a position the construction visits: the input
    itself, or an element of a group whose first element is a list. *)
Inductive bad_group_reached : value -> Prop :=
| bad_here (l : list value) :
    length l <> 4%nat -> bad_group_reached (VList l)
| bad_below (x0 : value) (rest : list value) (x : value) :
    is_list x0 = true ->
    In x (x0 :: rest) ->
    bad_group_reached x ->
    bad_group_reached (VList (x0 :: rest)).

(** Every group holds only 0/1 leaves or only groups of the same kind. *)
Fixpoint consistent (v : value) : bool :=
  match v with
  | VList l =>
      forallb is_bit l || forallb (fun x => is_list x && consistent x) l
  | _ => false
  end.

(** Every group has 4 elements, all scalars or all groups of the same
    kind; the scalars are arbitrary. *)
Fixpoint shaped (v : value) : bool :=
  match v with
  | VList l =>
      (length l =? 4)%nat &&
      (forallb is_scalar l || forallb (fun x => is_list x && shaped x) l)
  | _ => false
  end.

(** Every group whose first element is not a list holds no list. *)
Fixpoint leaf_groups_pure (v : value) : bool :=
  match v with
  | VList l =>
      match l with
      | [] => true
      | x0 :: _ =>
          if is_list x0 then forallb leaf_groups_pure l
          else forallb (fun x => negb (is_list x)) l
      end
  | _ => true
  end.

(** The leaves of the serialized form, left to right. *)
Fixpoint seq_leaves (v : value) : list value :=
  match v with
  | VList l => flat_map seq_leaves l
  | _ => [v]
  end.

(** The leaves of a tree in the order [hg], [hd], [bd], [bg]. *)
Fixpoint tree_leaves (t : QuadTree) : list value :=
  let child (c : value) : list value :=
    match c with
    | VObj q => tree_leaves q
    | _ => [c]
    end in
  match t with
  | mkQuadTree a b c d => child a ++ child b ++ child c ++ child d
  end.

(** The contribution of one child slot to [depths]. *)
Definition depths_of (c : value) : list Z :=
  match c with
  | VObj q => [depth q]
  | _ => []
  end.

(** The depth a child slot contributes, 0 when it holds no [QuadTree]. *)
Definition child_depth (c : value) : Z :=
  match c with
  | VObj q => depth q
  | _ => 0
  end.

(** The exceptions [from_list] itself can raise. *)
Definition construction_error (e : exn) : Prop :=
  e = IndexError \/ e = ValueError \/ e = TypeError.

(** ** [TkQuadTree.__init__] *)

(** An instance of [TkQuadTree]: the four inherited child slots, the
    attribute [data] and the items of its canvas.  The Tk root window and
    the canvas widget are represented by the items only; a new canvas has
    none. *)
Record TkQuadTree : Type := mkTkQuadTree {
  tk_node : QuadTree;
  tk_data : value;
  tk_canvas : canvas
}.

Section TkInit.
(** The toolkit calls of the constructor, each of which returns or
    raises (without a display, for one): [tk.Tk()], [tk.Canvas(root,
    width=400, height=400)] and [canvas.pack()]. *)
Variable tk_Tk : result unit.
Variable tk_Canvas : result unit.
Variable canvas_pack : result unit.

(** The constructor calls the base constructor with four times [False],
    stores [data], makes the root window and a 400 by 400 canvas, packs
    the canvas and draws [data] on it from the origin.  An exception
    raised by a toolkit call or by [draw] leaves the constructor. *)
Definition TkQuadTree_init (data : value) : result TkQuadTree :=
  let node := mkQuadTree (VBool false) (VBool false) (VBool false) (VBool false) in
  _ <- tk_Tk ;;
  _ <- tk_Canvas ;;
  _ <- canvas_pack ;;
  match draw 0 0 400 data [] with
  | (cv, Ok _) => Ok (mkTkQuadTree node data cv)
  | (_, Raise e) => Raise e
  end.
End TkInit.

(** ** Measures and shapes used by the properties below *)

(** [isinstance(v, int)]: [bool] is a subclass of [int]. *)
Definition is_int (v : value) : bool :=
  match v with
  | VInt _ | VBool _ => true
  | _ => false
  end.

(** The fill [draw] chooses for an [int] leaf. *)
Definition leaf_colour (v : value) : string :=
  if eq_zero v then "lightgrey" else "black".

(** How deeply brackets are nested: 0 for a value that is not a list. *)
Fixpoint nesting (v : value) : Z :=
  match v with
  | VList l => 1 + fold_right (fun x m => Z.max (nesting x) m) 0 l
  | _ => 0
  end.

(** A value with no [QuadTree] instance anywhere inside. *)
Fixpoint plain (v : value) : bool :=
  match v with
  | VObj _ => false
  | VList l => forallb plain l
  | _ => true
  end.

(** Some list that [draw] visits (the value itself, or one of the first
    four elements of a visited list) has fewer than four elements. *)
Fixpoint short_group (v : value) : bool :=
  match v with
  | VList l =>
      match l with
      | a :: b :: c :: d :: _ =>
          short_group a || short_group b || short_group c || short_group d
      | _ => true
      end
  | _ => false
  end.

(** What a command adds to an empty canvas, and how it ends. *)
Definition items (c : cmd) : list rectangle := fst (c []).
Definition outcome (c : cmd) : result unit := snd (c []).

(** A command that only appends: on every canvas it adds the items [i]
    and ends with [r]. *)
Definition appends (c : cmd) (i : list rectangle) (r : result unit) : Prop :=
  forall cv, c cv = (cv ++ i, r).

(** The rectangle lies inside the square with corner [(x, y)] and side
    [size]. *)
Definition inside (x y size : Z) (r : rectangle) : Prop :=
  x <= rx0 r /\ rx0 r <= rx1 r /\ rx1 r <= x + size /\
  y <= ry0 r /\ ry0 r <= ry1 r /\ ry1 r <= y + size.

Definition area (r : rectangle) : Z := (rx1 r - rx0 r) * (ry1 r - ry0 r).

Definition total_area (cv : list rectangle) : Z :=
  fold_right (fun r acc => area r + acc) 0 cv.

(** A command that appends exactly what it adds to the empty canvas. *)
Definition framed (c : cmd) : Prop := appends c (items c) (outcome c).

(** ** Induction over values *)

Section ValueInd.
Variable P : value -> Prop.
Variable Q : QuadTree -> Prop.
Hypothesis HInt : forall z, P (VInt z).
Hypothesis HBool : forall b, P (VBool b).
Hypothesis HNone : P VNone.
Hypothesis HStr : forall s, P (VStr s).
Hypothesis HList : forall l, Forall P l -> P (VList l).
Hypothesis HObj : forall t, Q t -> P (VObj t).
Hypothesis HTree :
  forall a b c d, P a -> P b -> P c -> P d -> Q (mkQuadTree a b c d).

Fixpoint value_ind' (v : value) : P v :=
  match v with
  | VInt z => HInt z
  | VBool b => HBool b
  | VNone => HNone
  | VStr s => HStr s
  | VList l =>
      HList l ((fix all (l : list value) : Forall P l :=
                  match l with
                  | [] => Forall_nil P
                  | x :: xs => Forall_cons x (value_ind' x) (all xs)
                  end) l)
  | VObj t => HObj t (QuadTree_ind' t)
  end
with QuadTree_ind' (t : QuadTree) : Q t :=
  match t with
  | mkQuadTree a b c d =>
      HTree a b c d (value_ind' a) (value_ind' b) (value_ind' c) (value_ind' d)
  end.
End ValueInd.

(** ** Facts about [depth] *)

Lemma depth_unfold (a b c d : value) :
  depth (mkQuadTree a b c d)
  = 1 + py_max 0 (depths_of a ++ depths_of b ++ depths_of c ++ depths_of d).
Proof. reflexivity. Qed.

Lemma fold_max_depths_of (c : value) (m : Z) :
  0 <= m -> 0 <= child_depth c ->
  fold_left Z.max (depths_of c) m = Z.max m (child_depth c).
Proof.
  intros Hm Hc. destruct c; simpl in *; lia.
Qed.

Lemma depth_children (a b c d : value) :
  0 <= child_depth a -> 0 <= child_depth b ->
  0 <= child_depth c -> 0 <= child_depth d ->
  depth (mkQuadTree a b c d)
  = 1 + Z.max (child_depth a)
          (Z.max (child_depth b) (Z.max (child_depth c) (child_depth d))).
Proof.
  intros Ha Hb Hc Hd.
  rewrite depth_unfold. unfold py_max.
  rewrite !fold_left_app.
  rewrite (fold_max_depths_of a) by lia.
  rewrite (fold_max_depths_of b) by lia.
  rewrite (fold_max_depths_of c) by lia.
  rewrite (fold_max_depths_of d) by lia.
  lia.
Qed.

Lemma depth_child_nonneg :
  (forall v, 0 <= child_depth v) /\ (forall t, 1 <= depth t).
Proof.
  assert (H : forall v, 0 <= child_depth v).
  { apply (value_ind' (fun v => 0 <= child_depth v) (fun t => 1 <= depth t));
      intros; try (simpl; lia).
    rewrite depth_children by assumption. lia. }
  split; [exact H|].
  intros [a b c d]. rewrite depth_children by apply H.
  pose proof (H a). lia.
Qed.

Lemma depth_max (a b c d : value) :
  depth (mkQuadTree a b c d)
  = 1 + Z.max (child_depth a)
          (Z.max (child_depth b) (Z.max (child_depth c) (child_depth d))).
Proof. apply depth_children; apply depth_child_nonneg. Qed.

Lemma spec_depth_pos (n : Spec.Node) : 1 <= Spec.depth n.
Proof. induction n; cbn [Spec.depth]; lia. Qed.

(** ** Depth of constructed trees *)

(** C1 (as the code behaves): for the input [[0,1,1,0]] the tree built by
    [from_list] has depth 1, because [depth] counts only children that
    are [QuadTree] instances and the four leaves are plain integers. *)
Theorem from_list_leaf_group_depth :
  exists t, from_list (ints [0; 1; 1; 0]) = Ok (VObj t) /\ depth t = 1.
Proof.
  exists (mkQuadTree (VInt 0) (VInt 1) (VInt 1) (VInt 0)).
  split; reflexivity.
Qed.

(** C1 as stated fails: the depth of the tree built from [[0,1,1,0]] is
    not 2. *)
Lemma from_list_leaf_group_depth_not_2 :
  exists t, from_list (ints [0; 1; 1; 0]) = Ok (VObj t) /\ depth t <> 2.
Proof.
  exists (mkQuadTree (VInt 0) (VInt 1) (VInt 1) (VInt 0)).
  split; [reflexivity | discriminate].
Qed.

(** C2 as stated fails: [[0,1,1,0]] is well formed, its depth under the
    specification's rule is 2, and the tree built from it has depth 1. *)
Lemma from_list_depth_differs_from_spec :
  let S := ints [0; 1; 1; 0] in
  Spec.well_formed S = true /\
  exists n t,
    Spec.parse S = Some n /\ from_list S = Ok (VObj t) /\
    Spec.depth n = 2 /\ depth t <> Spec.depth n.
Proof.
  split; [reflexivity|].
  exists (Spec.Split (Spec.Leaf false) (Spec.Leaf true)
                     (Spec.Leaf true) (Spec.Leaf false)).
  exists (mkQuadTree (VInt 0) (VInt 1) (VInt 1) (VInt 0)).
  repeat split; discriminate.
Qed.

Lemma parse_list_inv (l : list value) (n : Spec.Node) :
  Spec.parse (VList l) = Some n ->
  exists a b c d na nb nc nd,
    l = [a; b; c; d] /\ n = Spec.Split na nb nc nd /\
    Spec.parse a = Some na /\ Spec.parse b = Some nb /\
    Spec.parse c = Some nc /\ Spec.parse d = Some nd.
Proof.
  destruct l as [|a [|b [|c [|d [|e l]]]]]; cbn [Spec.parse]; try discriminate.
  destruct (Spec.parse a) as [na|] eqn:Ha; [|discriminate].
  destruct (Spec.parse b) as [nb|] eqn:Hb; [|discriminate].
  destruct (Spec.parse c) as [nc|] eqn:Hc; [|discriminate].
  destruct (Spec.parse d) as [nd|] eqn:Hd; [|discriminate].
  intros [= <-]. exists a, b, c, d, na, nb, nc, nd. repeat split; assumption.
Qed.

Lemma parse_scalar_inv (v : value) (n : Spec.Node) :
  is_list v = false -> Spec.parse v = Some n ->
  is_bit v = true /\ Spec.depth n = 1 /\ from_list v = Ok VNone.
Proof.
  destruct v as [z|b| |s|l|t]; try discriminate.
  intros _. destruct z as [|[p|p|]|p]; simpl; try discriminate;
    intros [= <-]; repeat split.
Qed.

(** Each element of a well-formed sequence yields a value whose
    contribution to the parent's depth is one less than its depth under
    the specification's rule. *)
Lemma from_list_child_depth (v : value) :
  forall n,
    Spec.parse v = Some n -> leaf_groups_pure v = true ->
    exists r, from_list v = Ok r /\ child_depth r = Spec.depth n - 1 /\
              (is_list v = true -> is_QuadTree r = true).
Proof.
  induction v using value_ind'
    with (Q := fun _ => True); try exact I; intros n Hp Hpure.
  - destruct (parse_scalar_inv (VInt z) n eq_refl Hp) as (_ & Hd & Hf).
    exists VNone. rewrite Hd.
    split; [exact Hf | split; [reflexivity | discriminate]].
  - discriminate.
  - discriminate.
  - discriminate.
  - destruct (parse_list_inv l n Hp)
      as (a & b & c & d & na & nb & nc & nd & -> & -> & Ha & Hb & Hc & Hd).
    inversion H as [|? ? IHa H1]; subst. inversion H1 as [|? ? IHb H2]; subst.
    inversion H2 as [|? ? IHc H3]; subst. inversion H3 as [|? ? IHd _]; subst.
    cbn [leaf_groups_pure] in Hpure. cbn [from_list].
    destruct (is_list a) eqn:Ea.
    + cbn [forallb] in Hpure.
      apply andb_prop in Hpure as [Pa Hpure]. apply andb_prop in Hpure as [Pb Hpure].
      apply andb_prop in Hpure as [Pc Hpure]. apply andb_prop in Hpure as [Pd _].
      destruct (IHa na Ha Pa) as (ra & Fa & Da & _).
      destruct (IHb nb Hb Pb) as (rb & Fb & Db & _).
      destruct (IHc nc Hc Pc) as (rc & Fc & Dc & _).
      destruct (IHd nd Hd Pd) as (rd & Fd & Dd & _).
      exists (VObj (mkQuadTree ra rb rc rd)).
      cbn [map unpack4]. rewrite Fa, Fb, Fc, Fd. cbn [bind].
      repeat split.
      cbn [child_depth]. rewrite depth_max, Da, Db, Dc, Dd.
      cbn [Spec.depth]. lia.
    + cbn [forallb] in Hpure.
      apply andb_prop in Hpure as [_ Hpure]. apply andb_prop in Hpure as [Pb Hpure].
      apply andb_prop in Hpure as [Pc Hpure]. apply andb_prop in Hpure as [Pd _].
      apply negb_true_iff in Pb, Pc, Pd.
      destruct (parse_scalar_inv a na Ea Ha) as (_ & Da & _).
      destruct (parse_scalar_inv b nb Pb Hb) as (_ & Db & _).
      destruct (parse_scalar_inv c nc Pc Hc) as (_ & Dc & _).
      destruct (parse_scalar_inv d nd Pd Hd) as (_ & Dd & _).
      exists (VObj (mkQuadTree a b c d)). cbn [QuadTree_star].
      repeat split.
      cbn [child_depth Spec.depth]. rewrite depth_max, Da, Db, Dc, Dd.
      destruct a, b, c, d; try discriminate; cbn [child_depth]; lia.
  - discriminate.
Qed.

(** C2 (as the code behaves): for every well-formed nested sequence [S]
    of depth [d] under the specification's rule, in which every group
    that starts with a leaf holds only leaves, [from_list S] returns a
    tree whose [depth] is [d - 1]. *)
Theorem from_list_depth (S : value) (n : Spec.Node) :
  Spec.well_formed S = true ->
  Spec.parse S = Some n ->
  leaf_groups_pure S = true ->
  exists t, from_list S = Ok (VObj t) /\ depth t = Spec.depth n - 1.
Proof.
  intros Hwf Hp Hpure.
  apply andb_prop in Hwf as [Hl _].
  destruct (from_list_child_depth S n Hp Hpure) as (r & Hf & Hd & Hq).
  specialize (Hq Hl). destruct r as [| | | | |t]; try discriminate.
  exists t. split; [exact Hf | exact Hd].
Qed.

Lemma from_list_depth_witness :
  exists t,
    from_list (VList [ints [1;0;0;1]; ints [0;0;1;0]; ints [1;1;0;0]; ints [0;1;1;0]])
    = Ok (VObj t) /\
    depth t = 3 - 1.
Proof.
  apply (from_list_depth
           (VList [ints [1;0;0;1]; ints [0;0;1;0]; ints [1;1;0;0]; ints [0;1;1;0]])
           (Spec.Split
              (Spec.Split (Spec.Leaf true) (Spec.Leaf false) (Spec.Leaf false) (Spec.Leaf true))
              (Spec.Split (Spec.Leaf false) (Spec.Leaf false) (Spec.Leaf true) (Spec.Leaf false))
              (Spec.Split (Spec.Leaf true) (Spec.Leaf true) (Spec.Leaf false) (Spec.Leaf false))
              (Spec.Split (Spec.Leaf false) (Spec.Leaf true) (Spec.Leaf true) (Spec.Leaf false))));
    reflexivity.
Defined.

(** ** The branch rule of [from_list] *)

Lemma from_list_four (a b c d : value) :
  from_list (VList [a; b; c; d])
  = if is_list a then
      ta <- from_list a ;;
      tb <- from_list b ;;
      tc <- from_list c ;;
      td <- from_list d ;;
      Ok (VObj (mkQuadTree ta tb tc td))
    else
      Ok (VObj (mkQuadTree a b c d)).
Proof.
  cbn [from_list]. destruct (is_list a); [|reflexivity].
  cbn [map unpack4].
  destruct (from_list a); [|reflexivity].
  destruct (from_list b); [|reflexivity].
  destruct (from_list c); [|reflexivity].
  destruct (from_list d); reflexivity.
Qed.

(** C8: on a 4-element list [from_list] looks only at whether the first
    element is a list.  If it is, the four elements are built
    recursively, in order, and stored as [hg], [hd], [bd], [bg] (the
    first exception, if any, is the outcome); if it is not, the four
    elements themselves become the children, whatever they are. *)
Theorem from_list_branch_on_first (a b c d : value) :
  (is_list a = true ->
   from_list (VList [a; b; c; d])
   = (ta <- from_list a ;;
      tb <- from_list b ;;
      tc <- from_list c ;;
      td <- from_list d ;;
      Ok (VObj (mkQuadTree ta tb tc td)))) /\
  (is_list a = false ->
   from_list (VList [a; b; c; d]) = Ok (VObj (mkQuadTree a b c d))).
Proof.
  rewrite from_list_four. split; intros ->; reflexivity.
Qed.

Lemma from_list_branch_on_first_witness :
  from_list (VList [ints [1; 0; 0; 1]; VInt 0; ints [0; 1; 1; 0]; VNone])
  = Ok (VObj (mkQuadTree (VObj (mkQuadTree (VInt 1) (VInt 0) (VInt 0) (VInt 1)))
                         VNone
                         (VObj (mkQuadTree (VInt 0) (VInt 1) (VInt 1) (VInt 0)))
                         VNone)) /\
  from_list (VList [VInt 1; ints [0; 1; 1; 0]; VNone; VStr "x"])
  = Ok (VObj (mkQuadTree (VInt 1) (ints [0; 1; 1; 0]) VNone (VStr "x"))).
Proof.
  split.
  - exact (proj1 (from_list_branch_on_first
                    (ints [1; 0; 0; 1]) (VInt 0) (ints [0; 1; 1; 0]) VNone) eq_refl).
  - exact (proj2 (from_list_branch_on_first
                    (VInt 1) (ints [0; 1; 1; 0]) VNone (VStr "x")) eq_refl).
Defined.

(** C9: the first element is read before anything else, so the empty
    list raises [IndexError] and no tree is produced. *)
Theorem from_list_empty :
  from_list (VList []) = Raise IndexError.
Proof. reflexivity. Qed.

(** C10: an input [v] that is not a list makes [from_list] return [None]
    without raising; hence when [v] is a sibling in a group whose first
    element is a list, the node built for the group holds [None] in the
    slot of [v]. *)
Theorem from_list_non_list (v : value) :
  is_list v = false ->
  from_list v = Ok VNone /\
  forall a x y ta tx ty,
    is_list a = true ->
    from_list a = Ok ta -> from_list x = Ok tx -> from_list y = Ok ty ->
    from_list (VList [a; v; x; y]) = Ok (VObj (mkQuadTree ta VNone tx ty)) /\
    from_list (VList [a; x; v; y]) = Ok (VObj (mkQuadTree ta tx VNone ty)) /\
    from_list (VList [a; x; y; v]) = Ok (VObj (mkQuadTree ta tx ty VNone)).
Proof.
  intros Hv.
  assert (Hn : from_list v = Ok VNone) by (destruct v; try discriminate; reflexivity).
  split; [exact Hn|].
  intros a x y ta tx ty Ha Fa Fx Fy.
  rewrite !from_list_four, Ha, Fa, Fx, Fy, Hn.
  repeat split.
Qed.

Lemma from_list_non_list_witness :
  from_list (VInt 7) = Ok VNone /\
  from_list (VList [ints [0; 0; 0; 0]; VInt 7; VInt 1; VInt 1])
  = Ok (VObj (mkQuadTree (VObj (mkQuadTree (VInt 0) (VInt 0) (VInt 0) (VInt 0)))
                         VNone VNone VNone)).
Proof.
  destruct (from_list_non_list (VInt 7) eq_refl) as [H0 H1].
  split; [exact H0|].
  exact (proj1 (H1 (ints [0; 0; 0; 0]) (VInt 1) (VInt 1) _ _ _
                   eq_refl eq_refl eq_refl eq_refl)).
Defined.

(** ** [from_file] and its argument *)

(** C6: [from_file] overwrites [filename] before using it.  Whatever
    the argument, it opens the one path built from the module's parent
    directory, ["files"] and ["../files/quadtree-easy.txt"]; when that
    file cannot be opened it raises, otherwise it evaluates the text
    read from it (with [filename] bound to the fixed name) and hands the
    value to [from_list].  So any two arguments give the same result,
    whatever the file system and [eval] do. *)
Theorem from_file_ignores_filename
  (module_file : string)
  (os_path_abspath os_path_dirname : string -> string)
  (os_path_join : list string -> string)
  (open_read : string -> option string)
  (py_eval : list (string * string) -> string -> result value)
  (filename1 filename2 : string) :
  let file_path :=
    os_path_join [os_path_dirname (os_path_abspath module_file)] in
  let parent_directory :=
    os_path_abspath (os_path_join [file_path; ".."%string]) in
  let txt_file :=
    os_path_join [parent_directory; "files"%string;
                  "../files/quadtree-easy.txt"%string] in
  let scope :=
    [("filename", "../files/quadtree-easy.txt"); ("file_path", file_path);
     ("parent_directory", parent_directory); ("txt_file", txt_file)]%string in
  from_file module_file os_path_abspath os_path_dirname os_path_join
            open_read py_eval filename1
  = match open_read txt_file with
    | None => Raise OSError
    | Some text =>
        match py_eval scope text with
        | Ok data => from_list data
        | Raise e => Raise e
        end
    end
  /\
  from_file module_file os_path_abspath os_path_dirname os_path_join
            open_read py_eval filename1
  = from_file module_file os_path_abspath os_path_dirname os_path_join
              open_read py_eval filename2.
Proof.
  cbv zeta. split; [|reflexivity].
  unfold from_file, os_pardir. destruct (open_read _); reflexivity.
Qed.

(** ** [draw] on the demonstration input *)

(** A 4-element list is drawn child by child with half the size:
    element 0 at the origin, element 1 shifted right, element 2 shifted
    down, element 3 shifted right and down. *)
Lemma draw_four (x y size : Z) (a b c d : value) :
  draw x y size (VList [a; b; c; d])
  = (draw x y (size / 2) a >>
     draw (x + size / 2) y (size / 2) b >>
     draw x (y + size / 2) (size / 2) c >>
     draw (x + size / 2) (y + size / 2) (size / 2) d).
Proof. reflexivity. Qed.

(** C3 (what the code does on the scenario): drawing the depth-2 input
    over the 400 by 400 square creates 16 squares of side 100 and raises
    nothing, but list element 2 is drawn in the bottom-left quadrant and
    element 3 in the bottom-right one, so the canvas differs from the
    rendering in the order top-left, top-right, bottom-right,
    bottom-left. *)
Theorem draw_scenario :
  draw 0 0 400 scenario []
  = ([ square 0 0 100 "black";       square 100 0 100 "lightgrey";
       square 0 100 100 "lightgrey"; square 100 100 100 "black";
       square 200 0 100 "lightgrey"; square 300 0 100 "lightgrey";
       square 200 100 100 "black";   square 300 100 100 "lightgrey";
       square 0 200 100 "black";     square 100 200 100 "black";
       square 0 300 100 "lightgrey"; square 100 300 100 "lightgrey";
       square 200 200 100 "lightgrey"; square 300 200 100 "black";
       square 200 300 100 "black";   square 300 300 100 "lightgrey" ],
     Ok tt)
  /\ Spec.parse scenario = Some scenario_node
  /\ fst (draw 0 0 400 scenario []) <> Spec.render 0 0 400 scenario_node.
Proof.
  split; [reflexivity|]. split; [reflexivity|].
  vm_compute. discriminate.
Qed.

(** ** Inversion of [from_list] *)

Lemma unpack4_ok_inv (gen : list (result value)) (a b c d : value) :
  unpack4 gen = Ok (a, b, c, d) -> gen = [Ok a; Ok b; Ok c; Ok d].
Proof.
  destruct gen as [|[a'|] [|[b'|] [|[c'|] [|[d'|] [|[e'|] g]]]]];
    cbn [unpack4 bind]; try discriminate.
  intros [= -> -> -> ->]. reflexivity.
Qed.

Lemma unpack4_raise_inv (gen : list (result value)) (e : exn) :
  unpack4 gen = Raise e -> e = ValueError \/ In (Raise e) gen.
Proof.
  destruct gen as [|[a'|] [|[b'|] [|[c'|] [|[d'|] [|[e'|] g]]]]];
    cbn [unpack4 bind]; intros [= <-]; cbn [In]; auto 7.
Qed.

(** When [from_list] returns from a list, the list has four elements and
    the result is a node: built from the four recursive results when the
    first element is a list, from the elements themselves otherwise. *)
Lemma from_list_ok_inv (l : list value) (r : value) :
  from_list (VList l) = Ok r ->
  exists a b c d,
    l = [a; b; c; d] /\
    if is_list a then
      exists ta tb tc td,
        from_list a = Ok ta /\ from_list b = Ok tb /\
        from_list c = Ok tc /\ from_list d = Ok td /\
        r = VObj (mkQuadTree ta tb tc td)
    else r = VObj (mkQuadTree a b c d).
Proof.
  cbn [from_list]. destruct l as [|a l']; [discriminate|].
  destruct (is_list a) eqn:Ea.
  - destruct (unpack4 (map from_list (a :: l'))) as [[[[ta tb] tc] td]|] eqn:Eu;
      cbn [bind]; [|discriminate].
    intros [= <-]. apply unpack4_ok_inv in Eu.
    destruct l' as [|b [|c [|d [|? ?]]]]; try discriminate.
    injection Eu as Fa Fb Fc Fd.
    exists a, b, c, d. rewrite Ea. split; [reflexivity|].
    exists ta, tb, tc, td. repeat split; assumption.
  - destruct l' as [|b [|c [|d [|? ?]]]]; cbn [QuadTree_star]; try discriminate.
    intros [= <-]. exists a, b, c, d. rewrite Ea. split; reflexivity.
Qed.

(** [from_list] raises nothing but [IndexError], [ValueError] and
    [TypeError]. *)
Lemma from_list_errors (v : value) :
  forall e, from_list v = Raise e -> construction_error e.
Proof.
  unfold construction_error.
  induction v using value_ind' with (Q := fun _ => True);
    try exact I; try discriminate.
  intros e. cbn [from_list]. destruct l as [|a l']; [intros [= <-]; auto|].
  destruct (is_list a).
  - destruct (unpack4 (map from_list (a :: l'))) as [[[[ta tb] tc] td]|e'] eqn:Eu;
      cbn [bind]; [discriminate|].
    intros [= ->]. apply unpack4_raise_inv in Eu as [->|Hin]; [auto|].
    apply in_map_iff in Hin as (x & Hx & Hin).
    rewrite Forall_forall in H. exact (H x Hin e Hx).
  - destruct l' as [|b [|c [|d [|? ?]]]]; cbn [QuadTree_star];
      intros [= <-]; auto.
Qed.

(** ** Groups of the wrong size *)

(** C4 as stated fails: [[0, [1, 2], 0, 0]] contains the 2-element group
    [[1, 2]], yet [from_list] returns a tree that stores that list as its
    second child. *)
Lemma from_list_keeps_bad_group :
  let S := VList [VInt 0; ints [1; 2]; VInt 0; VInt 0] in
  has_bad_group S = true /\
  from_list S = Ok (VObj (mkQuadTree (VInt 0) (ints [1; 2]) (VInt 0) (VInt 0))).
Proof. split; reflexivity. Qed.

(** C4 (as the code behaves): when a list with fewer or more than 4
    elements sits at a position the construction visits (the input
    itself, or an element of a group whose first element is a list),
    [from_list] raises [IndexError], [ValueError] or [TypeError] and
    returns nothing. *)
Theorem from_list_bad_group_raises (S : value) :
  bad_group_reached S ->
  exists e, from_list S = Raise e /\ construction_error e.
Proof.
  intros H.
  assert (Hr : raises (from_list S)).
  { induction H as [l Hlen | x0 rest x Hx0 Hin Hbad IH].
    - destruct (from_list (VList l)) as [r|e] eqn:E; [|exists e; reflexivity].
      apply from_list_ok_inv in E as (a & b & c & d & -> & _).
      exfalso. apply Hlen. reflexivity.
    - destruct (from_list (VList (x0 :: rest))) as [r|e] eqn:E;
        [|exists e; reflexivity].
      exfalso. destruct IH as [e He].
      apply from_list_ok_inv in E as (a & b & c & d & El & Hr).
      injection El as -> ->. rewrite Hx0 in Hr.
      destruct Hr as (ta & tb & tc & td & Fa & Fb & Fc & Fd & _).
      cbn [In] in Hin.
      destruct Hin as [<-|[<-|[<-|[<-|[]]]]]; congruence. }
  destruct Hr as [e He]. exists e. split; [exact He|].
  exact (from_list_errors S e He).
Qed.

Lemma from_list_bad_group_raises_witness :
  exists e,
    from_list (VList [ints [0; 0; 0; 0]; ints [1; 2]; ints [0; 0; 0; 0]; ints [0; 0; 0; 0]])
    = Raise e /\ construction_error e.
Proof.
  apply from_list_bad_group_raises.
  apply (bad_below (ints [0; 0; 0; 0]) _ (ints [1; 2])).
  - reflexivity.
  - simpl. right. left. reflexivity.
  - apply bad_here. simpl. lia.
Defined.

(** ** Leaf values *)

(** C5 as stated fails: [[0, 2, 1, 0]] holds the leaf value 2, yet
    [from_list] returns a tree with 2 as its second child. *)
Lemma from_list_keeps_bad_leaf :
  let S := ints [0; 2; 1; 0] in
  has_bad_leaf S = true /\
  from_list S = Ok (VObj (mkQuadTree (VInt 0) (VInt 2) (VInt 1) (VInt 0))).
Proof. split; reflexivity. Qed.

Lemma tree_leaves_unfold (a b c d : value) :
  tree_leaves (mkQuadTree a b c d)
  = let child (x : value) :=
      match x with VObj q => tree_leaves q | _ => [x] end in
    child a ++ child b ++ child c ++ child d.
Proof. reflexivity. Qed.

(** C5 (as the code behaves): leaf values are not checked.  For every
    input whose groups all have 4 elements and hold either only scalars
    or only groups, whatever the scalars are, [from_list] raises nothing
    and returns a tree whose leaves are those of the input, unchanged and
    in the same order. *)
Theorem from_list_keeps_leaves (S : value) :
  shaped S = true ->
  exists t, from_list S = Ok (VObj t) /\ tree_leaves t = seq_leaves S.
Proof.
  induction S using value_ind' with (Q := fun _ => True);
    try exact I; try discriminate.
  cbn [shaped]. intros Hs. apply andb_prop in Hs as [Hlen Hs].
  destruct l as [|a [|b [|c [|d [|? ?]]]]]; try discriminate. clear Hlen.
  inversion H as [|? ? IHa H1]; subst. inversion H1 as [|? ? IHb H2]; subst.
  inversion H2 as [|? ? IHc H3]; subst. inversion H3 as [|? ? IHd _]; subst.
  rewrite from_list_four.
  cbn [seq_leaves flat_map]. rewrite app_nil_r.
  apply orb_prop in Hs as [Hs|Hs]; cbn [forallb] in Hs;
    apply andb_prop in Hs as [Sa Hs]; apply andb_prop in Hs as [Sb Hs];
    apply andb_prop in Hs as [Sc Hs]; apply andb_prop in Hs as [Sd _].
  - assert (Ea : is_list a = false) by (destruct a; try discriminate; reflexivity).
    rewrite Ea. eexists; split; [reflexivity|].
    rewrite tree_leaves_unfold.
    destruct a; try discriminate; destruct b; try discriminate;
      destruct c; try discriminate; destruct d; try discriminate; reflexivity.
  - apply andb_prop in Sa as [La Sa]. apply andb_prop in Sb as [_ Sb].
    apply andb_prop in Sc as [_ Sc]. apply andb_prop in Sd as [_ Sd].
    destruct (IHa Sa) as (ta & Fa & Ta). destruct (IHb Sb) as (tb & Fb & Tb).
    destruct (IHc Sc) as (tc & Fc & Tc). destruct (IHd Sd) as (td & Fd & Td).
    rewrite La, Fa, Fb, Fc, Fd. cbn [bind].
    eexists; split; [reflexivity|].
    rewrite tree_leaves_unfold. cbv beta iota zeta. rewrite Ta, Tb, Tc, Td. reflexivity.
Qed.

Lemma from_list_keeps_leaves_witness :
  exists t,
    from_list (VList [ints [0; 2; 1; 0]; ints [5; 0; 0; 1];
                      VList [VNone; VInt 1; VBool true; VInt (-3)]; ints [1; 1; 1; 1]])
    = Ok (VObj t) /\
    tree_leaves t
    = seq_leaves (VList [ints [0; 2; 1; 0]; ints [5; 0; 0; 1];
                         VList [VNone; VInt 1; VBool true; VInt (-3)]; ints [1; 1; 1; 1]]).
Proof.
  apply from_list_keeps_leaves. reflexivity.
Defined.

(** ** All-or-nothing construction *)





(** ** Commands only append *)

Lemma appends_skip : appends skip [] (Ok tt).
Proof. intros cv. unfold skip. rewrite app_nil_r. reflexivity. Qed.

Lemma appends_throw (e : exn) : appends (throw e) [] (Raise e).
Proof. intros cv. unfold throw. rewrite app_nil_r. reflexivity. Qed.

Lemma appends_create (x0 y0 x1 y1 : Z) (f o : string) :
  appends (create_rectangle x0 y0 x1 y1 f o) [mkRect x0 y0 x1 y1 f o] (Ok tt).
Proof. intros cv. reflexivity. Qed.

Lemma appends_andthen (c1 c2 : cmd) (i1 i2 : list rectangle) (r1 r2 : result unit) :
  appends c1 i1 r1 -> appends c2 i2 r2 ->
  appends (c1 >> c2)
          (i1 ++ match r1 with Ok _ => i2 | Raise _ => [] end)
          (match r1 with Ok _ => r2 | Raise e => Raise e end).
Proof.
  intros H1 H2 cv. unfold andthen. rewrite H1.
  destruct r1 as [u|e].
  - rewrite H2, app_assoc. reflexivity.
  - rewrite app_nil_r. reflexivity.
Qed.

Lemma appends_items (c : cmd) (i : list rectangle) (r : result unit) :
  appends c i r -> items c = i /\ outcome c = r.
Proof. intros H. unfold items, outcome. rewrite H. split; reflexivity. Qed.

Lemma draw_appends (node : value) :
  forall x y size, exists i r, appends (draw x y size node) i r.
Proof.
  induction node using value_ind' with (Q := fun _ => True);
    try exact I; intros x y size; cbn [draw].
  - eexists _, _. apply appends_create.
  - eexists _, _. apply appends_create.
  - eexists _, _. apply appends_skip.
  - eexists _, _. apply appends_skip.
  - destruct l as [|a [|b [|c [|d rest]]]];
      repeat match goal with
             | H : Forall _ (_ :: _) |- _ => inversion H; clear H; subst
             end;
      repeat match goal with
             | H : forall x y size, exists i r, appends (draw x y size ?n) i r
               |- context [draw ?x' ?y' ?s' ?n] =>
                 let i := fresh "i" in let r := fresh "r" in let F := fresh "F" in
                 destruct (H x' y' s') as (i & r & F); clear H
             end;
      eexists _, _;
      repeat first [ eassumption | apply appends_throw
                   | eapply appends_andthen ].
  - eexists _, _. apply appends_skip.
Qed.

Lemma draw_frame (x y size : Z) (node : value) (cv : canvas) :
  draw x y size node cv
  = (cv ++ items (draw x y size node), outcome (draw x y size node)).
Proof.
  destruct (draw_appends node x y size) as (i & r & F).
  destruct (appends_items _ _ _ F) as [-> ->]. apply F.
Qed.

Lemma framed_draw (x y size : Z) (node : value) : framed (draw x y size node).
Proof. intros cv. apply draw_frame. Qed.

Lemma framed_throw (e : exn) : framed (throw e).
Proof. exact (appends_throw e). Qed.

Lemma framed_andthen (c1 c2 : cmd) :
  framed c1 -> framed c2 -> framed (c1 >> c2).
Proof.
  intros H1 H2.
  pose proof (appends_andthen _ _ _ _ _ _ H1 H2) as H.
  destruct (appends_items _ _ _ H) as [Hi Ho].
  unfold framed. rewrite Hi, Ho. exact H.
Qed.

Lemma items_andthen (c1 c2 : cmd) :
  framed c1 -> framed c2 ->
  items (c1 >> c2)
  = items c1 ++ match outcome c1 with Ok _ => items c2 | Raise _ => [] end.
Proof.
  intros H1 H2.
  exact (proj1 (appends_items _ _ _ (appends_andthen _ _ _ _ _ _ H1 H2))).
Qed.

Lemma outcome_andthen (c1 c2 : cmd) :
  framed c1 -> framed c2 ->
  outcome (c1 >> c2)
  = match outcome c1 with Ok _ => outcome c2 | Raise e => Raise e end.
Proof.
  intros H1 H2.
  exact (proj2 (appends_items _ _ _ (appends_andthen _ _ _ _ _ _ H1 H2))).
Qed.

Ltac solve_framed :=
  repeat first [ apply framed_draw | apply framed_throw | apply framed_andthen ].

(** The four calls made for a list with at least four elements. *)
Lemma draw_list4 (x y size : Z) (a b c d : value) (rest : list value) :
  let h := size / 2 in
  let ca := draw x y h a in
  let cb := draw (x + h) y h b in
  let cc := draw x (y + h) h c in
  let cd := draw (x + h) (y + h) h d in
  items (draw x y size (VList (a :: b :: c :: d :: rest)))
  = items ca ++
    match outcome ca with
    | Raise _ => []
    | Ok _ =>
        items cb ++
        match outcome cb with
        | Raise _ => []
        | Ok _ =>
            items cc ++
            match outcome cc with Raise _ => [] | Ok _ => items cd end
        end
    end
  /\
  outcome (draw x y size (VList (a :: b :: c :: d :: rest)))
  = match outcome ca with
    | Raise e => Raise e
    | Ok _ =>
        match outcome cb with
        | Raise e => Raise e
        | Ok _ => match outcome cc with Raise e => Raise e | Ok _ => outcome cd end
        end
    end.
Proof.
  cbn zeta. cbn [draw].
  rewrite !items_andthen, !outcome_andthen by solve_framed.
  split; reflexivity.
Qed.

(** Every item a list adds is added by one of its elements, drawn with
    half the size at the origin or shifted by half the size. *)
Lemma draw_list_item (x y size : Z) (l : list value) (r : rectangle) :
  In r (items (draw x y size (VList l))) ->
  exists c x' y',
    In c l /\ (x' = x \/ x' = x + size / 2) /\ (y' = y \/ y' = y + size / 2) /\
    In r (items (draw x' y' (size / 2) c)).
Proof.
  destruct l as [|a [|b [|c [|d rest]]]]; cbn [draw];
    rewrite ?items_andthen by solve_framed;
    repeat match goal with
           | |- context [match outcome ?c with _ => _ end] => destruct (outcome c)
           end;
    rewrite ?in_app_iff; cbn [items throw fst In];
    intros H;
    repeat match goal with
           | H : _ \/ _ |- _ => destruct H as [H|H]
           | H : False |- _ => destruct H
           end;
    eexists _, _, _; (split; [|split; [|split; [|exact H]]]); cbn [In]; auto 6.
Qed.

(** ** How [draw] ends *)

Lemma draw_outcome (node : value) :
  forall x y size,
    outcome (draw x y size node)
    = if short_group node then Raise IndexError else Ok tt.
Proof.
  induction node using value_ind' with (Q := fun _ => True);
    try exact I; intros x y size; try reflexivity.
  destruct l as [|a [|b [|c [|d rest]]]];
    repeat match goal with
           | H : Forall _ (_ :: _) |- _ => inversion H; clear H; subst
           end;
    cbn [draw short_group];
    rewrite ?outcome_andthen by solve_framed;
    repeat match goal with
           | H : forall x y size, outcome (draw x y size ?n) = _ |- _ =>
               rewrite !H; clear H
           end;
    repeat match goal with
           | |- context [short_group ?n] => destruct (short_group n)
           end;
    reflexivity.
Qed.

Lemma draw_raises_iff_short_group_aux (x y size : Z) (node : value) (cv : canvas) :
  snd (draw x y size node cv)
  = if short_group node then Raise IndexError else Ok tt.
Proof.
  rewrite draw_frame. cbn [snd]. apply draw_outcome.
Qed.

(** X12 (draw, exceptions): whatever the canvas holds, [draw] raises
    [IndexError] exactly when a list it visits has fewer than four
    elements, and otherwise returns normally; it raises nothing else. *)
Theorem draw_raises_iff_short_group (x y size : Z) (node : value) (cv : canvas) :
  snd (draw x y size node cv)
  = if short_group node then Raise IndexError else Ok tt.
Proof. exact (draw_raises_iff_short_group_aux x y size node cv). Qed.

(** X11 (draw, existing items): [draw] only appends.  The items already on
    the canvas stay, in place and unchanged, in front of the new ones,
    and neither the new items nor the way [draw] ends depend on them. *)
Theorem draw_only_appends (x y size : Z) (node : value) (cv : canvas) :
  draw x y size node cv
  = (cv ++ fst (draw x y size node []), snd (draw x y size node [])).
Proof. exact (draw_frame x y size node cv). Qed.

(** ** Where [draw] paints *)

Lemma draw_items_inside (node : value) :
  forall x y size r,
    0 <= size -> In r (items (draw x y size node)) -> inside x y size r.
Proof.
  induction node using value_ind' with (Q := fun _ => True);
    try exact I; intros x y size r Hs Hin;
    try (cbn in Hin; destruct Hin as [<-|[]]; unfold inside; cbn; lia);
    try (cbn in Hin; destruct Hin).
  apply draw_list_item in Hin as (c & x' & y' & Hc & Hx & Hy & Hin).
  rewrite Forall_forall in H.
  assert (Hh : 0 <= size / 2) by (apply Z.div_pos; lia).
  pose proof (Z.mul_div_le size 2 ltac:(lia)) as Hle.
  specialize (H c Hc x' y' (size / 2) r Hh Hin).
  unfold inside in *. destruct Hx as [->| ->], Hy as [->| ->]; lia.
Qed.

(** X13 (draw, bounds): with a non-negative [size], every item that [draw]
    adds lies inside the square with corner [(x, y)] and side [size],
    for every node, also when [draw] ends with an exception. *)
Theorem draw_stays_inside (x y size : Z) (node : value) (cv : canvas) (r : rectangle) :
  0 <= size ->
  In r (fst (draw x y size node cv)) ->
  In r cv \/ inside x y size r.
Proof.
  intros Hs. rewrite draw_frame. cbn [fst]. rewrite in_app_iff.
  intros [H|H]; [left; exact H | right].
  exact (draw_items_inside node x y size r Hs H).
Qed.

Lemma draw_stays_inside_witness :
  In (square 100 300 100 "lightgrey") [] \/
  inside 0 0 400 (square 100 300 100 "lightgrey").
Proof.
  apply (draw_stays_inside 0 0 400 scenario []).
  - lia.
  - vm_compute. tauto.
Defined.

Lemma draw_items_square (node : value) :
  forall x y size r,
    In r (items (draw x y size node)) ->
    rx1 r - rx0 r = ry1 r - ry0 r /\
    outline r = "black"%string /\
    (fill r = "lightgrey"%string \/ fill r = "black"%string).
Proof.
  induction node using value_ind' with (Q := fun _ => True);
    try exact I; intros x y size r Hin;
    try (cbn in Hin; destruct Hin).
  - subst r. cbn. split; [lia|]. split; [reflexivity|].
    destruct (z =? 0); auto.
  - contradiction.
  - subst r. cbn. split; [lia|]. split; [reflexivity|].
    destruct b; auto.
  - contradiction.
  - apply draw_list_item in Hin as (c & x' & y' & Hc & _ & _ & Hin).
    rewrite Forall_forall in H. exact (H c Hc x' y' (size / 2) r Hin).
Qed.

(** X14 (draw, items): every item that [draw] adds is a square (equal
    width and height) with a black outline, filled light grey or
    black. *)
Theorem draw_adds_squares (x y size : Z) (node : value) (cv : canvas) (r : rectangle) :
  In r (fst (draw x y size node cv)) ->
  In r cv \/
  (rx1 r - rx0 r = ry1 r - ry0 r /\
   outline r = "black"%string /\
   (fill r = "lightgrey"%string \/ fill r = "black"%string)).
Proof.
  rewrite draw_frame. cbn [fst]. rewrite in_app_iff.
  intros [H|H]; [left; exact H | right].
  exact (draw_items_square node x y size r H).
Qed.

Lemma draw_adds_squares_witness :
  In (square 100 300 100 "lightgrey") [] \/
  (rx1 (square 100 300 100 "lightgrey") - rx0 (square 100 300 100 "lightgrey")
   = ry1 (square 100 300 100 "lightgrey") - ry0 (square 100 300 100 "lightgrey") /\
   outline (square 100 300 100 "lightgrey") = "black"%string /\
   (fill (square 100 300 100 "lightgrey") = "lightgrey"%string \/
    fill (square 100 300 100 "lightgrey") = "black"%string)).
Proof.
  apply (draw_adds_squares 0 0 400 scenario []).
  vm_compute. tauto.
Defined.

(** ** [draw] on inputs of the expected shape *)

Lemma total_area_app (l1 l2 : list rectangle) :
  total_area (l1 ++ l2) = total_area l1 + total_area l2.
Proof.
  unfold total_area.
  induction l1 as [|r l1 IH]; cbn [app fold_right]; lia.
Qed.

Lemma nesting_nonneg (v : value) : 0 <= nesting v.
Proof.
  induction v using value_ind' with (Q := fun _ => True);
    try exact I; cbn [nesting]; try lia.
  induction H as [|x l Hx _ IH]; cbn [fold_right] in *; lia.
Qed.

Lemma pow2_divide (m n : Z) : 0 <= m <= n -> (2 ^ m | 2 ^ n).
Proof.
  intros H. exists (2 ^ (n - m)).
  rewrite <- Z.pow_add_r by lia. f_equal. lia.
Qed.

Lemma half_divisible (k size : Z) :
  1 <= k -> (2 ^ k | size) -> size = 2 * (size / 2) /\ (2 ^ (k - 1) | size / 2).
Proof.
  intros Hk [q Hq].
  assert (E : size = (2 ^ (k - 1) * q) * 2).
  { rewrite Hq. replace k with (k - 1 + 1) at 1 by lia.
    rewrite Z.pow_add_r by lia. change (2 ^ 1) with 2. ring. }
  assert (Hh : size / 2 = 2 ^ (k - 1) * q).
  { rewrite E at 1. apply Z.div_mul. lia. }
  split; [lia|]. exists q. rewrite Hh. ring.
Qed.

Lemma shaped_inv (l : list value) :
  shaped (VList l) = true ->
  exists a b c d,
    l = [a; b; c; d] /\
    ((is_scalar a = true /\ is_scalar b = true /\
      is_scalar c = true /\ is_scalar d = true) \/
     (is_list a = true /\ shaped a = true /\ is_list b = true /\ shaped b = true /\
      is_list c = true /\ shaped c = true /\ is_list d = true /\ shaped d = true)).
Proof.
  cbn [shaped]. intros Hs. apply andb_prop in Hs as [Hlen Hs].
  destruct l as [|a [|b [|c [|d [|? ?]]]]]; try discriminate.
  exists a, b, c, d. split; [reflexivity|].
  apply orb_prop in Hs as [Hs|Hs]; cbn [forallb] in Hs;
    repeat match goal with
           | H : _ && _ = true |- _ => apply andb_prop in H as [? H]
           end;
    repeat match goal with
           | H : _ && _ = true |- _ => apply andb_prop in H as [? ?]
           end;
    [left | right]; repeat split; assumption.
Qed.

Lemma scalar_or_shaped_cases (v : value) :
  is_scalar v = true \/ (is_list v = true /\ shaped v = true) ->
  is_scalar v || shaped v = true.
Proof. intros [->|[_ ->]]; [reflexivity | apply orb_true_r]. Qed.

Lemma draw_shaped_or_scalar (node : value) :
  is_scalar node || shaped node = true ->
  forall x y size,
    outcome (draw x y size node) = Ok tt /\
    map fill (items (draw x y size node))
    = map leaf_colour (filter is_int (seq_leaves node)).
Proof.
  induction node using value_ind' with (Q := fun _ => True);
    try exact I; try discriminate; intros Hs x y size;
    try (split; reflexivity).
  cbn [is_scalar orb] in Hs.
  apply shaped_inv in Hs as (a & b & c & d & -> & Hs).
  inversion H as [|? ? IHa H1]; subst. inversion H1 as [|? ? IHb H2]; subst.
  inversion H2 as [|? ? IHc H3]; subst. inversion H3 as [|? ? IHd _]; subst.
  assert (Sa : is_scalar a || shaped a = true)
    by (apply scalar_or_shaped_cases; tauto).
  assert (Sb : is_scalar b || shaped b = true)
    by (apply scalar_or_shaped_cases; tauto).
  assert (Sc : is_scalar c || shaped c = true)
    by (apply scalar_or_shaped_cases; tauto).
  assert (Sd : is_scalar d || shaped d = true)
    by (apply scalar_or_shaped_cases; tauto).
  destruct (draw_list4 x y size a b c d []) as [Hi Ho]. cbv zeta in Hi, Ho.
  destruct (IHa Sa x y (size / 2)) as [Oa Ia].
  destruct (IHb Sb (x + size / 2) y (size / 2)) as [Ob Ib].
  destruct (IHc Sc x (y + size / 2) (size / 2)) as [Oc Ic].
  destruct (IHd Sd (x + size / 2) (y + size / 2) (size / 2)) as [Od Id].
  rewrite Oa, Ob, Oc in Hi, Ho. rewrite Od in Ho.
  split; [exact Ho|].
  rewrite Hi. cbn [seq_leaves flat_map]. rewrite app_nil_r.
  rewrite !filter_app, !map_app, Ia, Ib, Ic, Id. reflexivity.
Qed.

(** X15 (draw, leaves in order): on an input whose groups all have four
    elements and hold only scalars or only groups, [draw] raises nothing
    and adds one square per integer or boolean leaf, in the order the
    leaves are written, light grey for a leaf equal to 0 and black for
    any other; leaves that are not integers add nothing. *)
Theorem draw_leaves_in_order (x y size : Z) (node : value) (cv : canvas) :
  shaped node = true ->
  exists new,
    draw x y size node cv = (cv ++ new, Ok tt) /\
    map fill new = map leaf_colour (filter is_int (seq_leaves node)).
Proof.
  intros Hs.
  assert (H : is_scalar node || shaped node = true)
    by (rewrite Hs; apply orb_true_r).
  destruct (draw_shaped_or_scalar node H x y size) as [Ho Hi].
  exists (items (draw x y size node)).
  rewrite draw_frame, Ho. split; [reflexivity | exact Hi].
Qed.

Lemma draw_leaves_in_order_witness :
  exists new,
    draw 0 0 400 (VList [ints [0; 2; 1; 0]; ints [5; 0; 0; 1];
                         VList [VNone; VInt 1; VBool true; VBool false];
                         ints [1; 1; 1; 1]]) []
    = ([] ++ new, Ok tt) /\
    map fill new
    = map leaf_colour
        (filter is_int
           (seq_leaves (VList [ints [0; 2; 1; 0]; ints [5; 0; 0; 1];
                               VList [VNone; VInt 1; VBool true; VBool false];
                               ints [1; 1; 1; 1]]))).
Proof.
  apply draw_leaves_in_order. reflexivity.
Defined.

Lemma draw_area_aux (node : value) :
  is_scalar node || shaped node = true ->
  forallb is_int (seq_leaves node) = true ->
  forall x y size,
    (2 ^ nesting node | size) ->
    total_area (items (draw x y size node)) = size * size.
Proof.
  induction node using value_ind' with (Q := fun _ => True);
    try exact I; try discriminate; intros Hs Hint x y size Hdiv;
    try discriminate Hint;
    try (unfold total_area, area, items; cbn; ring).
  cbn [is_scalar orb] in Hs.
  apply shaped_inv in Hs as (a & b & c & d & -> & Hs).
  inversion H as [|? ? IHa H1]; subst. inversion H1 as [|? ? IHb H2]; subst.
  inversion H2 as [|? ? IHc H3]; subst. inversion H3 as [|? ? IHd _]; subst.
  assert (Sa : is_scalar a || shaped a = true)
    by (apply scalar_or_shaped_cases; tauto).
  assert (Sb : is_scalar b || shaped b = true)
    by (apply scalar_or_shaped_cases; tauto).
  assert (Sc : is_scalar c || shaped c = true)
    by (apply scalar_or_shaped_cases; tauto).
  assert (Sd : is_scalar d || shaped d = true)
    by (apply scalar_or_shaped_cases; tauto).
  cbn [seq_leaves flat_map] in Hint. rewrite app_nil_r in Hint.
  rewrite !forallb_app in Hint.
  apply andb_prop in Hint as [Ja Hint]. apply andb_prop in Hint as [Jb Hint].
  apply andb_prop in Hint as [Jc Jd].
  cbn [nesting fold_right] in Hdiv.
  pose proof (nesting_nonneg a). pose proof (nesting_nonneg b).
  pose proof (nesting_nonneg c). pose proof (nesting_nonneg d).
  set (k := 1 + Z.max (nesting a) (Z.max (nesting b)
                 (Z.max (nesting c) (Z.max (nesting d) 0)))) in Hdiv.
  destruct (half_divisible k size ltac:(lia) Hdiv) as [E Hhalf].
  assert (Da : (2 ^ nesting a | size / 2))
    by (eapply Z.divide_trans; [apply (pow2_divide _ (k - 1)); lia | exact Hhalf]).
  assert (Db : (2 ^ nesting b | size / 2))
    by (eapply Z.divide_trans; [apply (pow2_divide _ (k - 1)); lia | exact Hhalf]).
  assert (Dc : (2 ^ nesting c | size / 2))
    by (eapply Z.divide_trans; [apply (pow2_divide _ (k - 1)); lia | exact Hhalf]).
  assert (Dd : (2 ^ nesting d | size / 2))
    by (eapply Z.divide_trans; [apply (pow2_divide _ (k - 1)); lia | exact Hhalf]).
  destruct (draw_list4 x y size a b c d []) as [Hi _]. cbv zeta in Hi.
  rewrite (proj1 (draw_shaped_or_scalar a Sa _ _ _)) in Hi.
  rewrite (proj1 (draw_shaped_or_scalar b Sb _ _ _)) in Hi.
  rewrite (proj1 (draw_shaped_or_scalar c Sc _ _ _)) in Hi.
  rewrite Hi, !total_area_app.
  rewrite (IHa Sa Ja _ _ _ Da), (IHb Sb Jb _ _ _ Db),
          (IHc Sc Jc _ _ _ Dc), (IHd Sd Jd _ _ _ Dd).
  remember (size / 2) as h eqn:Eh. clear - E. subst size. ring.
Qed.

(** X16 (draw, area): on an input whose groups all have four elements and
    hold only integer leaves or only groups, drawn with a [size] that is
    a multiple of 2 to the power of the nesting depth, the areas of the
    added squares sum to [size * size]: the halved sizes lose nothing to
    rounding. *)
Theorem draw_covers_area (x y size : Z) (node : value) :
  shaped node = true ->
  forallb is_int (seq_leaves node) = true ->
  (2 ^ nesting node | size) ->
  total_area (fst (draw x y size node [])) = size * size.
Proof.
  intros Hs Hint Hdiv.
  apply (draw_area_aux node); [rewrite Hs; apply orb_true_r | exact Hint | exact Hdiv].
Qed.

Lemma draw_covers_area_witness :
  total_area (fst (draw 0 0 400 scenario [])) = 400 * 400.
Proof.
  apply draw_covers_area.
  - reflexivity.
  - reflexivity.
  - exists 100. reflexivity.
Defined.

(** ** [TkQuadTree] instances *)



(** X18 (TkQuadTree, exceptions): constructing an instance raises [e]
    exactly when the first toolkit call that fails ([tk.Tk()], then
    [tk.Canvas(...)], then [pack()]) raises [e], or all three return,
    the data has a list with fewer than four elements where [draw]
    visits it, and [e] is [IndexError]. *)
Theorem TkQuadTree_init_raises
  (tk_Tk tk_Canvas canvas_pack : result unit) (data : value) (e : exn) :
  TkQuadTree_init tk_Tk tk_Canvas canvas_pack data = Raise e <->
  tk_Tk = Raise e \/
  (tk_Tk = Ok tt /\ tk_Canvas = Raise e) \/
  (tk_Tk = Ok tt /\ tk_Canvas = Ok tt /\ canvas_pack = Raise e) \/
  (tk_Tk = Ok tt /\ tk_Canvas = Ok tt /\ canvas_pack = Ok tt /\
   short_group data = true /\ e = IndexError).
Proof.
  unfold TkQuadTree_init.
  pose proof (draw_raises_iff_short_group_aux 0 0 400 data []) as H.
  destruct (draw 0 0 400 data []) as [cv r]. cbn [snd] in H. subst r.
  destruct tk_Tk as [[]|e1]; cbn [bind];
    [|split; [intros [= <-]; auto | intros [[= ->]|[[? _]|[[? _]|[? _]]]];
                                     [reflexivity | discriminate ..]]].
  destruct tk_Canvas as [[]|e2]; cbn [bind];
    [|split; [intros [= <-]; auto
             | intros [?|[[_ [= ->]]|[(_ & ? & _)|(_ & ? & _)]]];
               [discriminate | reflexivity | discriminate ..]]].
  destruct canvas_pack as [[]|e3]; cbn [bind];
    [|split; [intros [= <-]; auto 6
             | intros [?|[[_ ?]|[(_ & _ & [= ->])|(_ & _ & ? & _)]]];
               [discriminate | discriminate | reflexivity | discriminate]]].
  destruct (short_group data); split.
  - intros [= <-]. auto 10.
  - intros [?|[[_ ?]|[(_ & _ & ?)|(_ & _ & _ & _ & ->)]]];
      [discriminate ..| reflexivity].
  - discriminate.
  - intros [?|[[_ ?]|[(_ & _ & ?)|(_ & _ & _ & ? & _)]]]; discriminate.
Qed.

(** X19 (TkQuadTree, canvas): when the constructor returns, every item on
    the canvas lies inside the 400 by 400 area of the canvas. *)
Theorem TkQuadTree_init_canvas
  (tk_Tk tk_Canvas canvas_pack : result unit)
  (data : value) (w : TkQuadTree) (r : rectangle) :
  TkQuadTree_init tk_Tk tk_Canvas canvas_pack data = Ok w ->
  In r (tk_canvas w) ->
  inside 0 0 400 r.
Proof.
  unfold TkQuadTree_init.
  destruct tk_Tk; [|discriminate]. destruct tk_Canvas; [|discriminate].
  destruct canvas_pack; [|discriminate]. cbn [bind].
  destruct (draw 0 0 400 data []) as [cv [u|e]] eqn:E; [|discriminate].
  intros [= <-]. cbn [tk_canvas]. intros Hin.
  apply (draw_items_inside data 0 0 400 r); [lia|].
  unfold items. rewrite E. exact Hin.
Qed.

Lemma TkQuadTree_init_canvas_witness :
  inside 0 0 400 (square 300 300 100 "lightgrey").
Proof.
  apply (TkQuadTree_init_canvas (Ok tt) (Ok tt) (Ok tt) scenario
           (mkTkQuadTree (mkQuadTree (VBool false) (VBool false) (VBool false) (VBool false))
                         scenario (fst (draw 0 0 400 scenario [])))).
  - reflexivity.
  - vm_compute. tauto.
Defined.

(** ** More on what [from_list] returns and raises *)

Lemma bad_group_reached_raises (v : value) :
  bad_group_reached v -> raises (from_list v).
Proof.
  induction 1 as [l Hlen | x0 rest x Hx0 Hin Hbad IH].
  - destruct (from_list (VList l)) as [r|e] eqn:E; [|exists e; reflexivity].
    apply from_list_ok_inv in E as (a & b & c & d & -> & _).
    exfalso. apply Hlen. reflexivity.
  - destruct (from_list (VList (x0 :: rest))) as [r|e] eqn:E;
      [|exists e; reflexivity].
    exfalso. destruct IH as [e He].
    apply from_list_ok_inv in E as (a & b & c & d & El & Hr).
    injection El as -> ->. rewrite Hx0 in Hr.
    destruct Hr as (ta & tb & tc & td & Fa & Fb & Fc & Fd & _).
    cbn [In] in Hin.
    destruct Hin as [<-|[<-|[<-|[<-|[]]]]]; congruence.
Qed.

Lemma raises_bad_group_reached (v : value) :
  raises (from_list v) -> bad_group_reached v.
Proof.
  induction v using value_ind' with (Q := fun _ => True);
    try exact I; try (intros [e He]; discriminate).
  intros [e He].
  destruct (Nat.eq_dec (length l) 4) as [Hlen|Hlen]; [|apply bad_here; exact Hlen].
  destruct l as [|a [|b [|c [|d [|? ?]]]]]; try discriminate. clear Hlen.
  inversion H as [|? ? IHa H1]; subst. inversion H1 as [|? ? IHb H2]; subst.
  inversion H2 as [|? ? IHc H3]; subst. inversion H3 as [|? ? IHd _]; subst.
  rewrite from_list_four in He.
  destruct (is_list a) eqn:La; [|discriminate].
  destruct (from_list a) as [ta|ea] eqn:Fa;
    [|apply (bad_below a _ a La); [cbn; tauto | apply IHa; exists ea; reflexivity]].
  destruct (from_list b) as [tb|eb] eqn:Fb;
    [|apply (bad_below a _ b La); [cbn; tauto | apply IHb; exists eb; reflexivity]].
  destruct (from_list c) as [tc|ec] eqn:Fc;
    [|apply (bad_below a _ c La); [cbn; tauto | apply IHc; exists ec; reflexivity]].
  destruct (from_list d) as [td|ed] eqn:Fd;
    [|apply (bad_below a _ d La); [cbn; tauto | apply IHd; exists ed; reflexivity]].
  discriminate.
Qed.

(** X5 (from_list, when it raises): [from_list] raises exactly when a
    list with fewer or more than four elements sits at a position the
    construction visits: the input itself, or an element of a visited
    list whose first element is a list.  On every other input it
    returns. *)
Theorem from_list_raises_iff_bad_group (data : value) :
  (exists e, from_list data = Raise e) <-> bad_group_reached data.
Proof.
  split; [apply raises_bad_group_reached | apply bad_group_reached_raises].
Qed.

(** X6 (from_list, results): when [from_list] returns, it returns [None]
    for an input that is not a list, and for a list it returns a
    [QuadTree] and the list has exactly four elements. *)
Theorem from_list_returns (data r : value) :
  from_list data = Ok r ->
  (is_list data = false /\ r = VNone) \/
  (exists a b c d t, data = VList [a; b; c; d] /\ r = VObj t).
Proof.
  destruct data as [z|b| |s|l|t]; try (intros [= <-]; left; split; reflexivity).
  intros H. right.
  apply from_list_ok_inv in H as (a & b & c & d & -> & H).
  exists a, b, c, d.
  destruct (is_list a).
  - destruct H as (ta & tb & tc & td & _ & _ & _ & _ & ->).
    eexists; split; reflexivity.
  - subst r. eexists; split; reflexivity.
Qed.

Lemma from_list_returns_witness :
  (is_list (ints [0; 1; 1; 0]) = false /\
   VObj (mkQuadTree (VInt 0) (VInt 1) (VInt 1) (VInt 0)) = VNone) \/
  (exists a b c d t,
      ints [0; 1; 1; 0] = VList [a; b; c; d] /\
      VObj (mkQuadTree (VInt 0) (VInt 1) (VInt 1) (VInt 0)) = VObj t).
Proof.
  apply from_list_returns. reflexivity.
Defined.

(** X7 (from_list, TypeError): a non-empty list whose first element is
    not a list and whose length is not 4 raises [TypeError], whatever
    the other elements are. *)
Theorem from_list_scalar_first_wrong_length (x0 : value) (rest : list value) :
  is_list x0 = false ->
  length (x0 :: rest) <> 4%nat ->
  from_list (VList (x0 :: rest)) = Raise TypeError.
Proof.
  intros H0 Hlen. cbn [from_list]. rewrite H0.
  destruct rest as [|b [|c [|d [|? ?]]]]; try reflexivity.
  exfalso. apply Hlen. reflexivity.
Qed.

Lemma from_list_scalar_first_wrong_length_witness :
  from_list (VList [VInt 1; ints [0; 0; 0; 0]; VInt 0]) = Raise TypeError.
Proof.
  apply from_list_scalar_first_wrong_length.
  - reflexivity.
  - simpl. lia.
Defined.

(** X8 (from_list, ValueError): a list whose first element is a list and
    whose length is not 4 raises [ValueError], provided each of its
    first five elements can itself be built. *)
Theorem from_list_list_first_wrong_length (l : list value) :
  is_list (nth 0 l VNone) = true ->
  length l <> 4%nat ->
  (forall x, In x (firstn 5 l) -> exists r, from_list x = Ok r) ->
  from_list (VList l) = Raise ValueError.
Proof.
  intros H0 Hlen Hok.
  destruct l as [|a l']; [discriminate|].
  cbn [nth] in H0. cbn [from_list]. rewrite H0.
  destruct l' as [|b [|c [|d [|e rest]]]]; cbn [firstn In] in Hok;
    cbn [map unpack4];
    repeat match goal with
           | |- context [from_list ?x] =>
               let r := fresh "r" in let E := fresh "E" in
               destruct (Hok x) as [r E]; [tauto|]; rewrite E; cbn [bind]
           end;
    try reflexivity.
  exfalso. apply Hlen. reflexivity.
Qed.

Lemma from_list_list_first_wrong_length_witness :
  from_list (VList [ints [0; 0; 0; 0]; ints [1; 1; 1; 1]; VInt 3;
                    ints [0; 1; 0; 1]; VNone; ints []])
  = Raise ValueError.
Proof.
  apply from_list_list_first_wrong_length.
  - reflexivity.
  - simpl. lia.
  - intros x Hx. cbn [firstn In] in Hx.
    destruct Hx as [<-|[<-|[<-|[<-|[<-|[]]]]]]; eexists; reflexivity.
Defined.

(** X9 (from_list, first exception wins): in a list whose first element
    is a list, if one of the first five elements raises when built and
    all elements before it can be built, the whole call raises that
    element's exception; this includes a fifth element, which is built
    before the surplus is noticed. *)
Theorem from_list_first_exception (pre post : list value) (x : value) (e : exn) :
  is_list (nth 0 (pre ++ x :: post) VNone) = true ->
  (length pre <= 4)%nat ->
  (forall p, In p pre -> exists r, from_list p = Ok r) ->
  from_list x = Raise e ->
  from_list (VList (pre ++ x :: post)) = Raise e.
Proof.
  intros H0 Hlen Hok Hx.
  destruct pre as [|a [|b [|c [|d [|? ?]]]]];
    cbn [app nth] in H0 |- *; cbn [from_list]; rewrite H0;
    cbn [map unpack4]; cbn [In] in Hok;
    repeat match goal with
           | |- context [bind (from_list ?p)] =>
               lazymatch p with
               | x => fail
               | _ => let r := fresh "r" in let E := fresh "E" in
                      destruct (Hok p) as [r E]; [tauto|]; rewrite E; cbn [bind]
               end
           end;
    try (rewrite Hx; reflexivity).
  cbn [length] in Hlen. lia.
Qed.

Lemma from_list_first_exception_witness :
  from_list (VList ([ints [0; 0; 0; 0]; ints [1; 1; 1; 1]; ints [0; 1; 0; 1];
                     ints [1; 0; 1; 0]] ++ ints [] :: [VInt 9]))
  = Raise IndexError.
Proof.
  apply from_list_first_exception.
  - reflexivity.
  - simpl. lia.
  - intros p Hp. cbn [In] in Hp.
    destruct Hp as [<-|[<-|[<-|[<-|[]]]]]; eexists; reflexivity.
  - reflexivity.
Defined.

Lemma from_list_shaped_ok (v : value) :
  shaped v = true -> exists t, from_list v = Ok (VObj t).
Proof.
  induction v using value_ind' with (Q := fun _ => True);
    try exact I; try discriminate.
  intros Hs. apply shaped_inv in Hs as (a & b & c & d & -> & Hs).
  inversion H as [|? ? IHa H1]; subst. inversion H1 as [|? ? IHb H2]; subst.
  inversion H2 as [|? ? IHc H3]; subst. inversion H3 as [|? ? IHd _]; subst.
  rewrite from_list_four.
  destruct Hs as [(Sa & _)|(La & Sa & _ & Sb & _ & Sc & _ & Sd)].
  - assert (Ea : is_list a = false) by (destruct a; try discriminate; reflexivity).
    rewrite Ea. eexists; reflexivity.
  - destruct (IHa Sa) as [ta Fa]. destruct (IHb Sb) as [tb Fb].
    destruct (IHc Sc) as [tc Fc]. destruct (IHd Sd) as [td Fd].
    rewrite La, Fa, Fb, Fc, Fd. eexists; reflexivity.
Qed.

Lemma scalar_not_list (v : value) : is_scalar v = true -> is_list v = false.
Proof. destruct v; try discriminate; reflexivity. Qed.

Lemma from_list_injective_aux (v1 : value) :
  shaped v1 = true ->
  forall v2, shaped v2 = true -> from_list v1 = from_list v2 -> v1 = v2.
Proof.
  induction v1 using value_ind' with (Q := fun _ => True);
    try exact I; try discriminate.
  intros S1 v2 S2.
  destruct v2 as [| | | |l2|]; try discriminate.
  apply shaped_inv in S1 as (a & b & c & d & -> & S1).
  apply shaped_inv in S2 as (a' & b' & c' & d' & -> & S2).
  inversion H as [|? ? IHa H1]; subst. inversion H1 as [|? ? IHb H2]; subst.
  inversion H2 as [|? ? IHc H3]; subst. inversion H3 as [|? ? IHd _]; subst.
  rewrite !from_list_four.
  destruct S1 as [(Sa & Sb & Sc & Sd)|(La & Sa & _ & Sb & _ & Sc & _ & Sd)];
    destruct S2 as [(Sa' & Sb' & Sc' & Sd')|(La' & Sa' & _ & Sb' & _ & Sc' & _ & Sd')].
  - rewrite (scalar_not_list a Sa), (scalar_not_list a' Sa').
    intros [= -> -> -> ->]. reflexivity.
  - rewrite (scalar_not_list a Sa), La'.
    destruct (from_list_shaped_ok a' Sa') as [ta Fa].
    destruct (from_list_shaped_ok b' Sb') as [tb Fb].
    destruct (from_list_shaped_ok c' Sc') as [tc Fc].
    destruct (from_list_shaped_ok d' Sd') as [td Fd].
    rewrite Fa, Fb, Fc, Fd. cbn [bind]. intros [= -> _ _ _]. discriminate.
  - rewrite La, (scalar_not_list a' Sa').
    destruct (from_list_shaped_ok a Sa) as [ta Fa].
    destruct (from_list_shaped_ok b Sb) as [tb Fb].
    destruct (from_list_shaped_ok c Sc) as [tc Fc].
    destruct (from_list_shaped_ok d Sd) as [td Fd].
    rewrite Fa, Fb, Fc, Fd. cbn [bind]. intros [= <- _ _ _]. discriminate.
  - rewrite La, La'.
    destruct (from_list_shaped_ok a Sa) as [ta Fa].
    destruct (from_list_shaped_ok b Sb) as [tb Fb].
    destruct (from_list_shaped_ok c Sc) as [tc Fc].
    destruct (from_list_shaped_ok d Sd) as [td Fd].
    destruct (from_list_shaped_ok a' Sa') as [ta' Fa'].
    destruct (from_list_shaped_ok b' Sb') as [tb' Fb'].
    destruct (from_list_shaped_ok c' Sc') as [tc' Fc'].
    destruct (from_list_shaped_ok d' Sd') as [td' Fd'].
    rewrite Fa, Fb, Fc, Fd, Fa', Fb', Fc', Fd'. cbn [bind].
    intros [= Ea Eb Ec Ed].
    rewrite (IHa Sa a' Sa') by congruence.
    rewrite (IHb Sb b' Sb') by congruence.
    rewrite (IHc Sc c' Sc') by congruence.
    rewrite (IHd Sd d' Sd') by congruence.
    reflexivity.
Qed.

(** X10 (from_list, injective): two inputs whose groups all have four
    elements and hold only scalars or only groups build the same tree
    only if they are the same input: the input can be recovered from the
    tree. *)
Theorem from_list_injective (v1 v2 : value) :
  shaped v1 = true -> shaped v2 = true ->
  from_list v1 = from_list v2 -> v1 = v2.
Proof.
  intros S1 S2. exact (from_list_injective_aux v1 S1 v2 S2).
Qed.

Lemma from_list_injective_witness :
  scenario
  = VList [VList [VInt 1; VInt 0; VInt 0; VInt 1]; VList [VInt 0; VInt 0; VInt 1; VInt 0];
           VList [VInt 1; VInt 1; VInt 0; VInt 0]; VList [VInt 0; VInt 1; VInt 1; VInt 0]].
Proof.
  apply from_list_injective; reflexivity.
Defined.

(** ** More on [depth] *)

(** X1 (depth, lower bound): every tree has depth at least 1. *)
Theorem depth_at_least_one (t : QuadTree) : 1 <= depth t.
Proof. apply depth_child_nonneg. Qed.

(** X2 (depth, children): a child that is itself a tree is strictly
    shallower than its parent. *)
Theorem depth_child_lt (t q : QuadTree) :
  In (VObj q) [hg t; hd t; bd t; bg t] -> depth q < depth t.
Proof.
  destruct t as [a b c d]. cbn [hg hd bd bg In]. intros Hq.
  rewrite depth_max.
  pose proof (proj1 depth_child_nonneg a). pose proof (proj1 depth_child_nonneg b).
  pose proof (proj1 depth_child_nonneg c). pose proof (proj1 depth_child_nonneg d).
  destruct Hq as [->|[->|[->|[->|[]]]]]; cbn [child_depth] in *; lia.
Qed.

Lemma depth_child_lt_witness :
  depth (mkQuadTree (VInt 0) (VInt 0) (VInt 0) (VInt 0))
  < depth (mkQuadTree VNone (VInt 1)
                      (VObj (mkQuadTree (VInt 0) (VInt 0) (VInt 0) (VInt 0)))
                      (VBool true)).
Proof.
  apply depth_child_lt. simpl. tauto.
Defined.

Lemma from_list_depth_le_nesting_aux (v : value) :
  plain v = true ->
  forall r, from_list v = Ok r -> child_depth r <= nesting v.
Proof.
  induction v using value_ind' with (Q := fun _ => True);
    try exact I; try discriminate; intros Hp r Hr;
    try (injection Hr as <-; cbn; lia).
  apply from_list_ok_inv in Hr as (a & b & c & d & -> & Hr).
  inversion H as [|? ? IHa H1]; subst. inversion H1 as [|? ? IHb H2]; subst.
  inversion H2 as [|? ? IHc H3]; subst. inversion H3 as [|? ? IHd _]; subst.
  cbn [plain forallb] in Hp.
  apply andb_prop in Hp as [Pa Hp]. apply andb_prop in Hp as [Pb Hp].
  apply andb_prop in Hp as [Pc Hp]. apply andb_prop in Hp as [Pd _].
  pose proof (nesting_nonneg a). pose proof (nesting_nonneg b).
  pose proof (nesting_nonneg c). pose proof (nesting_nonneg d).
  cbn [nesting fold_right].
  destruct (is_list a).
  - destruct Hr as (ta & tb & tc & td & Fa & Fb & Fc & Fd & ->).
    specialize (IHa Pa ta Fa). specialize (IHb Pb tb Fb).
    specialize (IHc Pc tc Fc). specialize (IHd Pd td Fd).
    cbn [child_depth]. rewrite depth_max. lia.
  - subst r. cbn [child_depth]. rewrite depth_max.
    assert (Z0 : forall x, plain x = true -> child_depth x = 0)
      by (intros x Hx; destruct x; try discriminate; reflexivity).
    rewrite (Z0 a Pa), (Z0 b Pb), (Z0 c Pc), (Z0 d Pd). lia.
Qed.

(** X3 (depth, upper bound): for an input that holds no [QuadTree]
    instance, the tree [from_list] returns is never deeper than the
    brackets of the input are nested. *)
Theorem from_list_depth_le_nesting (data : value) (t : QuadTree) :
  plain data = true ->
  from_list data = Ok (VObj t) ->
  depth t <= nesting data.
Proof.
  intros Hp Hr. exact (from_list_depth_le_nesting_aux data Hp (VObj t) Hr).
Qed.

Lemma from_list_depth_le_nesting_witness :
  depth (mkQuadTree (VObj (mkQuadTree (VInt 0) (VInt 0) (VInt 0) (VInt 0)))
                    VNone
                    (VObj (mkQuadTree (VInt 1) (VInt 1) (VInt 1) (VInt 1)))
                    VNone)
  <= nesting (VList [ints [0; 0; 0; 0]; VInt 5; ints [1; 1; 1; 1]; VNone]).
Proof.
  apply from_list_depth_le_nesting; reflexivity.
Defined.

Lemma from_list_depth_shaped_aux (v : value) :
  is_scalar v || shaped v = true ->
  exists r, from_list v = Ok r /\ child_depth r = nesting v.
Proof.
  induction v using value_ind' with (Q := fun _ => True);
    try exact I; try discriminate; intros Hs;
    try (exists VNone; split; reflexivity).
  cbn [is_scalar orb] in Hs.
  apply shaped_inv in Hs as (a & b & c & d & -> & Hs).
  inversion H as [|? ? IHa H1]; subst. inversion H1 as [|? ? IHb H2]; subst.
  inversion H2 as [|? ? IHc H3]; subst. inversion H3 as [|? ? IHd _]; subst.
  assert (Sa : is_scalar a || shaped a = true)
    by (apply scalar_or_shaped_cases; tauto).
  assert (Sb : is_scalar b || shaped b = true)
    by (apply scalar_or_shaped_cases; tauto).
  assert (Sc : is_scalar c || shaped c = true)
    by (apply scalar_or_shaped_cases; tauto).
  assert (Sd : is_scalar d || shaped d = true)
    by (apply scalar_or_shaped_cases; tauto).
  destruct (IHa Sa) as (ta & Fa & Da). destruct (IHb Sb) as (tb & Fb & Db).
  destruct (IHc Sc) as (tc & Fc & Dc). destruct (IHd Sd) as (td & Fd & Dd).
  pose proof (nesting_nonneg a). pose proof (nesting_nonneg b).
  pose proof (nesting_nonneg c). pose proof (nesting_nonneg d).
  rewrite from_list_four. cbn [nesting fold_right].
  destruct Hs as [(Ca & Cb & Cc & Cd)|(La & _)].
  - rewrite (scalar_not_list a Ca). eexists; split; [reflexivity|].
    cbn [child_depth]. rewrite depth_max.
    assert (Z0 : forall x, is_scalar x = true -> child_depth x = 0 /\ nesting x = 0)
      by (intros x Hx; destruct x; try discriminate; split; reflexivity).
    destruct (Z0 a Ca) as [-> ->]. destruct (Z0 b Cb) as [-> ->].
    destruct (Z0 c Cc) as [-> ->]. destruct (Z0 d Cd) as [-> ->]. reflexivity.
  - rewrite La, Fa, Fb, Fc, Fd. cbn [bind]. eexists; split; [reflexivity|].
    cbn [child_depth]. rewrite depth_max. lia.
Qed.

(** X4 (depth, exact): on an input whose groups all have four elements
    and hold only scalars or only groups, the depth of the tree built by
    [from_list] is the number of bracket levels of the input. *)
Theorem from_list_depth_is_nesting (data : value) :
  shaped data = true ->
  exists t, from_list data = Ok (VObj t) /\ depth t = nesting data.
Proof.
  intros Hs.
  destruct (from_list_shaped_ok data Hs) as [t Ft].
  destruct (from_list_depth_shaped_aux data) as (r & Fr & Dr);
    [rewrite Hs; apply orb_true_r|].
  exists t. split; [exact Ft|].
  rewrite Ft in Fr. injection Fr as <-. exact Dr.
Qed.

Lemma from_list_depth_is_nesting_witness :
  exists t, from_list scenario = Ok (VObj t) /\ depth t = nesting scenario.
Proof.
  apply from_list_depth_is_nesting. reflexivity.
Defined.

(** ** [from_list] and [draw] on the same data *)

Lemma consistent_built_no_short_group (v : value) :
  is_bit v || consistent v = true ->
  forall r, from_list v = Ok r -> short_group v = false.
Proof.
  induction v using value_ind' with (Q := fun _ => True);
    try exact I; try discriminate; intros Hc r Hr; try reflexivity.
  cbn [is_bit orb] in Hc.
  apply from_list_ok_inv in Hr as (a & b & c & d & -> & Hr).
  inversion H as [|? ? IHa H1]; subst. inversion H1 as [|? ? IHb H2]; subst.
  inversion H2 as [|? ? IHc H3]; subst. inversion H3 as [|? ? IHd _]; subst.
  cbn [consistent forallb] in Hc. cbn [short_group].
  destruct (is_list a) eqn:La.
  - destruct Hr as (ta & tb & tc & td & Fa & Fb & Fc & Fd & _).
    assert (Ba : is_bit a = false) by (destruct a; try discriminate; reflexivity).
    rewrite Ba in Hc. cbn [andb orb] in Hc.
    apply andb_prop in Hc as [Ca Hc]. apply andb_prop in Hc as [Cb Hc].
    apply andb_prop in Hc as [Cc Hc]. apply andb_prop in Hc as [Cd _].
    apply andb_prop in Cb as [_ Cb]. apply andb_prop in Cc as [_ Cc].
    apply andb_prop in Cd as [_ Cd].
    rewrite (IHa ltac:(rewrite Ca; apply orb_true_r) ta Fa).
    rewrite (IHb ltac:(rewrite Cb; apply orb_true_r) tb Fb).
    rewrite (IHc ltac:(rewrite Cc; apply orb_true_r) tc Fc).
    rewrite (IHd ltac:(rewrite Cd; apply orb_true_r) td Fd).
    reflexivity.
  - cbn [andb] in Hc. rewrite orb_false_r in Hc.
    apply andb_prop in Hc as [Ba Hc]. apply andb_prop in Hc as [Bb Hc].
    apply andb_prop in Hc as [Bc Hc]. apply andb_prop in Hc as [Bd _].
    assert (Z0 : forall x, is_bit x = true -> short_group x = false)
      by (intros x Hx; destruct x; try discriminate; reflexivity).
    rewrite (Z0 a Ba), (Z0 b Bb), (Z0 c Bc), (Z0 d Bd). reflexivity.
Qed.

(** X20 (from_list and draw): an input with consistent nesting (every
    group holds only 0/1 leaves or only groups) from which [from_list]
    returns a tree is drawn by [draw] without an exception, at any
    position and size. *)
Theorem from_list_ok_draw_ok (data r : value) (x y size : Z) (cv : canvas) :
  consistent data = true ->
  from_list data = Ok r ->
  snd (draw x y size data cv) = Ok tt.
Proof.
  intros Hc Hr.
  rewrite draw_raises_iff_short_group_aux.
  rewrite (consistent_built_no_short_group data
             ltac:(rewrite Hc; apply orb_true_r) r Hr).
  reflexivity.
Qed.

Lemma from_list_ok_draw_ok_witness :
  snd (draw 0 0 400 scenario []) = Ok tt.
Proof.
  apply (from_list_ok_draw_ok scenario
           (VObj (mkQuadTree
                    (VObj (mkQuadTree (VInt 1) (VInt 0) (VInt 0) (VInt 1)))
                    (VObj (mkQuadTree (VInt 0) (VInt 0) (VInt 1) (VInt 0)))
                    (VObj (mkQuadTree (VInt 1) (VInt 1) (VInt 0) (VInt 0)))
                    (VObj (mkQuadTree (VInt 0) (VInt 1) (VInt 1) (VInt 0)))))).
  - reflexivity.
  - reflexivity.
Defined.
